(** * The persisted application store of peinture (src/store/appStore.ts)

    A shallow embedding of the zustand store [useAppStore]: the legacy
    migration helper [getLocalItem], the initializer, the setters,
    [resetSettings] and the [partialize] projection, with the properties
    the specification states about them.

    JavaScript values are a small dynamic value type; objects are finite
    maps from property names to values (stdpp's [gmap]); a call that may
    throw returns a [Completion]. *)

From Stdlib Require Import QArith_base Qreduction Ascii.
From stdpp Require Import gmap strings list fin_maps pretty.

Close Scope Q_scope.
#[local] Set Warnings "-register-all".

(** ** JavaScript values and completions *)

Module Js.

(** Run-time values: what [JSON.parse] can produce, and [undefined]
    (the result of reading a property that is not there).  Numbers are
    kept as exact rationals. *)
Inductive JsVal :=
  | JUndefined
  | JNull
  | JBool (b : bool)
  | JNum (q : Q)
  | JStr (s : string)
  | JArr (items : list JsVal)
  | JObj (fields : gmap string JsVal).

(** Objects outside a value: the state of the store, a partial state
    passed to [set], a persisted snapshot. *)
Abbreviation Obj := (gmap string JsVal).

(** The exceptions that occur in the modelled code. *)
Inductive JsError :=
  | SyntaxError
  | TypeError.

(** The outcome of evaluating an expression: a value, or a throw. *)
Inductive Completion (A : Type) :=
  | Normal (a : A)
  | Throw (e : JsError).

Arguments Normal {A} a.
Arguments Throw {A} e.

(** Sequencing: a throw skips what follows.  With these instances stdpp's
    [x ← c; k] reads as [const x = c; k]. *)
#[export] Instance Completion_ret : MRet Completion := λ A a, Normal a.
#[export] Instance Completion_bind : MBind Completion := λ A B k c,
  match c with
  | Normal a => k a
  | Throw e => Throw e
  end.

(** [try { body } catch (e) { handler e }] *)
Definition try_catch {A} (body : Completion A) (handler : JsError → Completion A)
  : Completion A :=
  match body with
  | Normal a => Normal a
  | Throw e => handler e
  end.

(** [o.k] on an object: the property's value, [undefined] when absent. *)
Definition get (o : Obj) (k : string) : JsVal :=
  default JUndefined (o !! k).

(** [s.startsWith(p)] *)
Definition startsWith (s p : string) : bool := String.prefix p s.

(** [c.toLowerCase()] on one character: the ASCII letters [A]-[Z] move to
    [a]-[z], every other byte stays. *)
Definition lower_ascii (c : Ascii.ascii) : Ascii.ascii :=
  let n := Ascii.N_of_ascii c in
  if ((65 <=? n)%N && (n <=? 90)%N)%bool then Ascii.ascii_of_N (n + 32) else c.

(** [s.toLowerCase()]; locale strings are ASCII language tags. *)
Fixpoint toLowerCase (s : string) : string :=
  match s with
  | EmptyString => EmptyString
  | String c r => String (lower_ascii c) (toLowerCase r)
  end.

End Js.
Export Js.


(** ** A JSON reader

    [JSON.parse] is a built-in of the host; the store is modelled for an
    arbitrary one (see [Store]).  [json_parse] below is a recursive-descent
    reader used wherever a concrete reader is needed.  It reads objects,
    arrays, strings with the single-character escapes, numbers with
    fraction and exponent, [true], [false] and [null].  It departs from
    the built-in in two ways: numbers are exact rationals, not rounded
    to doubles, and the four-hex-digit unicode escape is reported as a
    syntax error. *)

Module Json.

Definition dquote : Ascii.ascii := Ascii.ascii_of_N 34.
Definition backslash : Ascii.ascii := Ascii.ascii_of_N 92.

Definition is_ws (c : Ascii.ascii) : bool :=
  let n := Ascii.N_of_ascii c in
  ((n =? 32) || (n =? 9) || (n =? 10) || (n =? 13))%N.

Fixpoint skip_ws (s : string) : string :=
  match s with
  | String c r => if is_ws c then skip_ws r else s
  | EmptyString => s
  end.

Definition digit_of (c : Ascii.ascii) : option N :=
  let n := Ascii.N_of_ascii c in
  if ((48 <=? n) && (n <=? 57))%N then Some (n - 48)%N else None.

(** Reads a run of digits: the number read so far, how many digits were
    read, and the rest of the text. *)
Fixpoint read_digits (s : string) (acc : N) (cnt : nat) : N * nat * string :=
  match s with
  | String c r =>
      match digit_of c with
      | Some d => read_digits r (acc * 10 + d)%N (S cnt)
      | None => (acc, cnt, s)
      end
  | EmptyString => (acc, cnt, s)
  end.

Definition read_sign (s : string) : bool * string :=
  match s with
  | String "-"%char r => (true, r)
  | _ => (false, s)
  end.

Definition read_int (s : string) : option (N * string) :=
  match s with
  | String "0"%char r => Some (0%N, r)
  | _ => match read_digits s 0 0 with
         | (_, O, _) => None
         | (n, _, r) => Some (n, r)
         end
  end.

Definition read_frac (n : N) (s : string) : option (N * nat * string) :=
  match s with
  | String "."%char r =>
      match read_digits r n 0 with
      | (_, O, _) => None
      | res => Some res
      end
  | _ => Some (n, O, s)
  end.

Definition read_exp (s : string) : option (Z * string) :=
  let digits (neg : bool) (r : string) :=
    match read_digits r 0 0 with
    | (_, O, _) => None
    | (e, _, r') => Some (if neg then (- Z.of_N e)%Z else Z.of_N e, r')
    end in
  let signed (r : string) :=
    match r with
    | String "+"%char r' => digits false r'
    | String "-"%char r' => digits true r'
    | _ => digits false r
    end in
  match s with
  | String "e"%char r => signed r
  | String "E"%char r => signed r
  | _ => Some (0%Z, s)
  end.

Definition parse_number (s : string) : option (Q * string) :=
  let (neg, s1) := read_sign s in
  match read_int s1 with
  | None => None
  | Some (n, s2) =>
      match read_frac n s2 with
      | None => None
      | Some (m, places, s3) =>
          match read_exp s3 with
          | None => None
          | Some (e, s4) =>
              let mant := if neg then (- Z.of_N m)%Z else Z.of_N m in
              Some (Qred (Qmult (inject_Z mant)
                                (Qpower (inject_Z 10) (e - Z.of_nat places))), s4)
          end
      end
  end.

Definition unescape (c : Ascii.ascii) : option Ascii.ascii :=
  if Ascii.eqb c dquote then Some dquote
  else if Ascii.eqb c backslash then Some backslash
  else match c with
       | "/"%char => Some "/"%char
       | "b"%char => Some (Ascii.ascii_of_N 8)
       | "f"%char => Some (Ascii.ascii_of_N 12)
       | "n"%char => Some (Ascii.ascii_of_N 10)
       | "r"%char => Some (Ascii.ascii_of_N 13)
       | "t"%char => Some (Ascii.ascii_of_N 9)
       | _ => None
       end.

(** The text after an opening quote, up to the closing one. *)
Fixpoint parse_string_body (s : string) (acc : string) : option (string * string) :=
  match s with
  | EmptyString => None
  | String c r =>
      if Ascii.eqb c dquote then Some (acc, r)
      else if Ascii.eqb c backslash then
        match r with
        | String e r' =>
            match unescape e with
            | Some c' => parse_string_body r' (acc +:+ String c' EmptyString)
            | None => None
            end
        | EmptyString => None
        end
      else if (Ascii.N_of_ascii c <? 32)%N then None
      else parse_string_body r (acc +:+ String c EmptyString)
  end.

Definition parse_literal (s : string) : option (JsVal * string) :=
  match s with
  | String "t"%char (String "r"%char (String "u"%char (String "e"%char r))) => Some (JBool true, r)
  | String "f"%char (String "a"%char (String "l"%char (String "s"%char (String "e"%char r)))) =>
      Some (JBool false, r)
  | String "n"%char (String "u"%char (String "l"%char (String "l"%char r))) => Some (JNull, r)
  | _ => match parse_number s with
         | Some (q, r) => Some (JNum q, r)
         | None => None
         end
  end.

Fixpoint parse_value (fuel : nat) (s : string) : option (JsVal * string) :=
  match fuel with
  | O => None
  | S n =>
      match skip_ws s with
      | EmptyString => None
      | String c r =>
          if Ascii.eqb c dquote then
            match parse_string_body r EmptyString with
            | Some (str, r') => Some (JStr str, r')
            | None => None
            end
          else match c with
               | "["%char =>
                   match skip_ws r with
                   | String "]"%char r' => Some (JArr [], r')
                   | _ => parse_elements n r []
                   end
               | "{"%char =>
                   match skip_ws r with
                   | String "}"%char r' => Some (JObj ∅, r')
                   | _ => parse_members n r ∅
                   end
               | _ => parse_literal (String c r)
               end
      end
  end
with parse_elements (fuel : nat) (s : string) (acc : list JsVal)
  : option (JsVal * string) :=
  match fuel with
  | O => None
  | S n =>
      match parse_value n s with
      | None => None
      | Some (v, r) =>
          match skip_ws r with
          | String ","%char r' => parse_elements n r' (acc ++ [v])
          | String "]"%char r' => Some (JArr (acc ++ [v]), r')
          | _ => None
          end
      end
  end
with parse_members (fuel : nat) (s : string) (acc : Obj)
  : option (JsVal * string) :=
  match fuel with
  | O => None
  | S n =>
      match skip_ws s with
      | String c r =>
          if Ascii.eqb c dquote then
            match parse_string_body r EmptyString with
            | None => None
            | Some (k, r1) =>
                match skip_ws r1 with
                | String ":"%char r2 =>
                    match parse_value n r2 with
                    | None => None
                    | Some (v, r3) =>
                        match skip_ws r3 with
                        | String ","%char r4 => parse_members n r4 (<[k:=v]> acc)
                        | String "}"%char r4 => Some (JObj (<[k:=v]> acc), r4)
                        | _ => None
                        end
                    end
                | _ => None
                end
            end
          else None
      | EmptyString => None
      end
  end.

(** [JSON.parse(text)]: the value, or a [SyntaxError]. *)
Definition json_parse (text : string) : Completion JsVal :=
  match parse_value (2 * String.length text + 2) text with
  | Some (v, r) =>
      match skip_ws r with
      | EmptyString => Normal v
      | _ => Throw SyntaxError
      end
  | None => Throw SyntaxError
  end.


End Json.

(** ** The host environment

    What the module reads from the browser: the [localStorage] global
    ([None] when [typeof localStorage === 'undefined'], otherwise its
    string-to-string contents; [getItem] of a missing key is [null]) and
    [navigator.language]. *)

Record Env := {
  localStorage : option (gmap string string);
  navigator_language : string
}.

(** An argument that is a value or an updater function, told apart in
    the source by [typeof x === 'function']. *)
Inductive ValueOrFn :=
  | Value (v : JsVal)
  | Fn (f : JsVal → JsVal).

(** The calls a consumer can make on the store. *)
Inductive Action :=
  | SetLanguage (language : JsVal)
  | SetProvider (provider : JsVal)
  | SetModel (model : JsVal)
  | SetAspectRatio (aspectRatio : JsVal)
  | SetSeed (seed : JsVal)
  | SetSteps (steps : JsVal)
  | SetGuidanceScale (guidanceScale : JsVal)
  | SetAutoTranslate (autoTranslate : JsVal)
  | SetHistory (historyOrFn : ValueOrFn)
  | SetCloudHistory (historyOrFn : ValueOrFn)
  | SetCurrentView (currentView : JsVal)
  | SetPrompt (prompt : JsVal)
  | SetIsLoading (isLoading : JsVal)
  | SetIsTranslating (isTranslating : JsVal)
  | SetIsOptimizing (isOptimizing : JsVal)
  | SetIsUpscaling (isUpscaling : JsVal)
  | SetIsDownloading (isDownloading : JsVal)
  | SetIsUploading (isUploading : JsVal)
  | SetCurrentImage (imageOrFn : ValueOrFn)
  | SetImageDimensions (imageDimensions : JsVal)
  | SetIsLiveMode (isLiveMode : JsVal)
  | SetError (error : JsVal)
  | ResetSettings.

(** ** The store *)

Section Store.

(** [JSON.parse], a built-in: any function from texts to a value or a
    throw. *)
Variable JSON_parse : string → Completion JsVal.

(** [HF_MODEL_OPTIONS] of [../constants], an array of option objects;
    the constant is not part of this module. *)
Variable HF_MODEL_OPTIONS : list Obj.

(** *** Migration helper (appStore.ts, lines 10-23) *)

Definition getLocalItem (env : Env) (key : string) (def : JsVal)
  : Completion JsVal :=
  match localStorage env with
  | None => Normal def
  | Some storage =>
      try_catch
        (match storage !! key with
         | None => Normal def
         | Some item =>
             if startsWith item "{" || startsWith item "["
             then JSON_parse item
             else Normal (JStr item)
         end)
        (λ _, Normal def)
  end.

(** *** Initial state (lines 90-121)

    The state is the object the initializer returns, without its action
    closures, which no action replaces. *)

(** [HF_MODEL_OPTIONS[0].value]: reading [value] of [undefined] throws. *)
Definition first_model_value : Completion JsVal :=
  match HF_MODEL_OPTIONS !! 0%nat with
  | Some option => Normal (get option "value")
  | None => Throw TypeError
  end.

Definition initializer (env : Env) : Completion Obj :=
  let browserLang := toLowerCase (navigator_language env) in
  language ← getLocalItem env "app_language"
               (JStr (if startsWith browserLang "zh" then "zh" else "en"));
  provider ← getLocalItem env "app_provider" (JStr "huggingface");
  first ← first_model_value;
  model ← getLocalItem env "app_model" first;
  aspectRatio ← getLocalItem env "app_aspect_ratio" (JStr "1:1");
  history ← getLocalItem env "ai_image_gen_history" (JArr []);
  cloudHistory ← getLocalItem env "ai_cloud_history" (JArr []);
  mret (list_to_map [
    ("language", language);
    ("provider", provider);
    ("model", model);
    ("aspectRatio", aspectRatio);
    ("seed", JStr "");
    ("steps", JNum 9);
    ("guidanceScale", JNum 3.5);
    ("autoTranslate", JBool false);
    ("history", history);
    ("cloudHistory", cloudHistory);
    ("currentView", JStr "creation");
    ("prompt", JStr "");
    ("isLoading", JBool false);
    ("isTranslating", JBool false);
    ("isOptimizing", JBool false);
    ("isUpscaling", JBool false);
    ("isDownloading", JBool false);
    ("isUploading", JBool false);
    ("currentImage", JNull);
    ("imageDimensions", JNull);
    ("isLiveMode", JBool false);
    ("error", JNull)] : Obj).

(** *** Actions (lines 124-168) *)

(** zustand's [set(partial)]: the partial object is merged over the
    state, property by property. *)
Definition set (partial : Obj) (state : Obj) : Obj := partial ∪ state.

(** [set((state) => partial)] *)
Definition set_fn (partial : Obj → Obj) (state : Obj) : Obj :=
  set (partial state) state.

(** [typeof x === 'function' ? x(prev) : x] *)
Definition value_or_apply (x : ValueOrFn) (prev : JsVal) : JsVal :=
  match x with
  | Fn f => f prev
  | Value v => v
  end.

Definition setLanguage (language : JsVal) := set {["language" := language]}.
Definition setProvider (provider : JsVal) := set {["provider" := provider]}.
Definition setModel (model : JsVal) := set {["model" := model]}.
Definition setAspectRatio (aspectRatio : JsVal) :=
  set {["aspectRatio" := aspectRatio]}.
Definition setSeed (seed : JsVal) := set {["seed" := seed]}.
Definition setSteps (steps : JsVal) := set {["steps" := steps]}.
Definition setGuidanceScale (guidanceScale : JsVal) :=
  set {["guidanceScale" := guidanceScale]}.
Definition setAutoTranslate (autoTranslate : JsVal) :=
  set {["autoTranslate" := autoTranslate]}.

Definition setHistory (historyOrFn : ValueOrFn) :=
  set_fn (λ state,
    {["history" := value_or_apply historyOrFn (get state "history")]}).
Definition setCloudHistory (historyOrFn : ValueOrFn) :=
  set_fn (λ state,
    {["cloudHistory" := value_or_apply historyOrFn (get state "cloudHistory")]}).

Definition setCurrentView (currentView : JsVal) :=
  set {["currentView" := currentView]}.
Definition setPrompt (prompt : JsVal) := set {["prompt" := prompt]}.

Definition setIsLoading (isLoading : JsVal) := set {["isLoading" := isLoading]}.
Definition setIsTranslating (isTranslating : JsVal) :=
  set {["isTranslating" := isTranslating]}.
Definition setIsOptimizing (isOptimizing : JsVal) :=
  set {["isOptimizing" := isOptimizing]}.
Definition setIsUpscaling (isUpscaling : JsVal) :=
  set {["isUpscaling" := isUpscaling]}.
Definition setIsDownloading (isDownloading : JsVal) :=
  set {["isDownloading" := isDownloading]}.
Definition setIsUploading (isUploading : JsVal) :=
  set {["isUploading" := isUploading]}.

Definition setCurrentImage (imageOrFn : ValueOrFn) :=
  set_fn (λ state,
    {["currentImage" := value_or_apply imageOrFn (get state "currentImage")]}).
Definition setImageDimensions (imageDimensions : JsVal) :=
  set {["imageDimensions" := imageDimensions]}.
Definition setIsLiveMode (isLiveMode : JsVal) :=
  set {["isLiveMode" := isLiveMode]}.
Definition setError (error : JsVal) := set {["error" := error]}.

Definition resetSettings : Obj → Obj :=
  set (list_to_map [
    ("prompt", JStr "");
    ("seed", JStr "");
    ("aspectRatio", JStr "1:1");
    ("currentImage", JNull);
    ("isLiveMode", JBool false);
    ("error", JNull);
    ("imageDimensions", JNull)]).

(** *** Persistence options (lines 170-186) *)

Definition name : string := "peinture_storage_v1".

Definition partialize (state : Obj) : Obj :=
  list_to_map [
    ("language", get state "language");
    ("provider", get state "provider");
    ("model", get state "model");
    ("aspectRatio", get state "aspectRatio");
    ("seed", get state "seed");
    ("steps", get state "steps");
    ("guidanceScale", get state "guidanceScale");
    ("autoTranslate", get state "autoTranslate");
    ("history", get state "history");
    ("cloudHistory", get state "cloudHistory")].

(** *** Rehydration

    The [persist] middleware is zustand's and not part of this module. *)

(** The fields of the snapshot shape. *)
Definition persisted_fields : list string :=
  ["language"; "provider"; "model"; "aspectRatio"; "seed"; "steps";
   "guidanceScale"; "autoTranslate"; "history"; "cloudHistory"].

(** Modelled from the spec: the properties an object spread
    [{...v}] copies from a value, which is how the [persist] middleware
    merges what it read: the fields of an object, the elements of an
    array under their indices, the characters of a (here ASCII) string
    under theirs, and nothing for any other value. *)
Definition own_properties (v : JsVal) : Obj :=
  match v with
  | JObj fields => fields
  | JArr items => list_to_map (imap (λ i item, (pretty i, item)) items)
  | JStr text =>
      list_to_map
        (imap (λ i c, (pretty i, JStr (String c EmptyString)))
              (String.list_ascii_of_string text))
  | _ => ∅
  end.

(** Modelled from the spec: reading the unified entry of the [persist]
    middleware, which is missing from the sources.  The entry under
    [name] is the JSON text of an object that holds the snapshot under
    [state] and a number under [version], as [createJSONStorage] writes
    it.  There is nothing to merge when the storage medium is
    unavailable, when the entry is absent, when its text is not valid
    JSON or not the text of an object, and when it carries a version
    number other than the store's, which is 0. *)
Definition read_snapshot (env : Env) : option Obj :=
  storage ← localStorage env;
  raw ← storage !! name;
  match JSON_parse raw with
  | Normal (JObj entry) =>
      match entry !! "version" with
      | Some (JNum version) =>
          if Qeq_bool version 0
          then Some (own_properties (get entry "state"))
          else None
      | _ => Some (own_properties (get entry "state"))
      end
  | _ => None
  end.

(** Modelled from the spec: rehydration by the [persist] middleware.
    The fields of a found snapshot initialize the state fields of the
    same names; a field the snapshot does not have keeps the value the
    initializer gave it. *)
Definition rehydrate (env : Env) (state : Obj) : Obj :=
  match read_snapshot env with
  | Some snapshot => snapshot ∪ state
  | None => state
  end.

(** [create(persist(initializer, options))]: the state of the store once
    it is constructed. *)
Definition useAppStore (env : Env) : Completion Obj :=
  state ← initializer env;
  mret (rehydrate env state).

(** *** Runs of the store *)

Definition step (a : Action) : Obj → Obj :=
  match a with
  | SetLanguage v => setLanguage v
  | SetProvider v => setProvider v
  | SetModel v => setModel v
  | SetAspectRatio v => setAspectRatio v
  | SetSeed v => setSeed v
  | SetSteps v => setSteps v
  | SetGuidanceScale v => setGuidanceScale v
  | SetAutoTranslate v => setAutoTranslate v
  | SetHistory x => setHistory x
  | SetCloudHistory x => setCloudHistory x
  | SetCurrentView v => setCurrentView v
  | SetPrompt v => setPrompt v
  | SetIsLoading v => setIsLoading v
  | SetIsTranslating v => setIsTranslating v
  | SetIsOptimizing v => setIsOptimizing v
  | SetIsUpscaling v => setIsUpscaling v
  | SetIsDownloading v => setIsDownloading v
  | SetIsUploading v => setIsUploading v
  | SetCurrentImage x => setCurrentImage x
  | SetImageDimensions v => setImageDimensions v
  | SetIsLiveMode v => setIsLiveMode v
  | SetError v => setError v
  | ResetSettings => resetSettings
  end.

(** The states the store goes through: the constructed one, and every
    state an action leads to. *)
Inductive reachable (env : Env) : Obj → Prop :=
  | reachable_init state :
      useAppStore env = Normal state → reachable env state
  | reachable_step a state :
      reachable env state → reachable env (step a state).

End Store.

(** ** Vocabulary of the statements *)

(** The legacy per-key entries the initializer reads, and the state
    fields they seed. *)
Definition legacy_keys : list string :=
  ["app_language"; "app_provider"; "app_model"; "app_aspect_ratio";
   "ai_image_gen_history"; "ai_cloud_history"].


(** The fields the interface [AppState] marks as not persisted. *)
Definition ephemeral_fields : list string :=
  ["currentView"; "prompt"; "isLoading"; "isTranslating"; "isOptimizing";
   "isUpscaling"; "isDownloading"; "isUploading"; "currentImage";
   "imageDimensions"; "isLiveMode"; "error"].

(** The properties of the object [resetSettings] passes to [set]. *)
Definition reset_fields : list string :=
  ["prompt"; "seed"; "aspectRatio"; "currentImage"; "isLiveMode"; "error";
   "imageDimensions"].


(** The text [s] begins with the character [c]. *)
Definition begins_with (c : Ascii.ascii) (s : string) : Prop :=
  ∃ rest, s = String c rest.


(** Each legacy key with the state field the initializer seeds from it
    (lines 92-107). *)
Definition legacy_pairs : list (string * string) :=
  [("app_language", "language");
   ("app_provider", "provider");
   ("app_model", "model");
   ("app_aspect_ratio", "aspectRatio");
   ("ai_image_gen_history", "history");
   ("ai_cloud_history", "cloudHistory")].

(** The locale [l] starts with [zh], in either case of each letter. *)
Definition zh_locale (l : string) : Prop :=
  ∃ c1 c2 rest,
    l = String c1 (String c2 rest)
    ∧ (c1 = "z"%char ∨ c1 = "Z"%char)
    ∧ (c2 = "h"%char ∨ c2 = "H"%char).

(** Every data field of [AppState]. *)
Definition all_fields : list string := persisted_fields ++ ephemeral_fields.

(** What the storage medium holds under [key]: nothing when the medium
    is unavailable or has no such entry. *)
Definition stored (env : Env) (key : string) : option string :=
  storage ← localStorage env; storage !! key.

(** [snapshot] is the projection of [state] on the persisted fields: it
    has exactly those fields, each with the state's value, and none of
    the ephemeral ones. *)
Definition projection_of (state snapshot : Obj) : Prop :=
  dom snapshot = list_to_set persisted_fields
  ∧ (∀ k, k ∈ persisted_fields → snapshot !! k = state !! k)
  ∧ (∀ k, k ∈ ephemeral_fields → snapshot !! k = None).

(** ** Concrete stores *)

Module Sample.
Import Json.

Definition options : list Obj :=
  [ {["label" := JStr "Model A"; "value" := JStr "model-a"]};
    {["label" := JStr "Model B"; "value" := JStr "model-b"]} ].

(** A browser with an empty storage. *)
Definition fresh : Env :=
  {| localStorage := Some ∅; navigator_language := "zh-CN" |}.

Definition fresh_state : Obj :=
  match useAppStore json_parse options fresh with
  | Normal state => state
  | Throw _ => ∅
  end.

Definition dimensions : JsVal :=
  JObj {["width" := JNum 512; "height" := JNum 512]}.

Definition sized_state : Obj := setImageDimensions dimensions fresh_state.

(** Legacy entries only. *)
Definition legacy : Env :=
  {| localStorage := Some (list_to_map [
       ("app_language", "fr");
       ("app_provider", "");
       ("ai_image_gen_history", "[1, 2]");
       ("ai_cloud_history", "{oops")]);
     navigator_language := "en-US" |}.






End Sample.

(** ** Vocabulary of the further properties *)

(** The properties of the partial object an action passes to [set]
    (lines 124-168). *)
Definition written_fields (a : Action) : list string :=
  match a with
  | SetLanguage _ => ["language"]
  | SetProvider _ => ["provider"]
  | SetModel _ => ["model"]
  | SetAspectRatio _ => ["aspectRatio"]
  | SetSeed _ => ["seed"]
  | SetSteps _ => ["steps"]
  | SetGuidanceScale _ => ["guidanceScale"]
  | SetAutoTranslate _ => ["autoTranslate"]
  | SetHistory _ => ["history"]
  | SetCloudHistory _ => ["cloudHistory"]
  | SetCurrentView _ => ["currentView"]
  | SetPrompt _ => ["prompt"]
  | SetIsLoading _ => ["isLoading"]
  | SetIsTranslating _ => ["isTranslating"]
  | SetIsOptimizing _ => ["isOptimizing"]
  | SetIsUpscaling _ => ["isUpscaling"]
  | SetIsDownloading _ => ["isDownloading"]
  | SetIsUploading _ => ["isUploading"]
  | SetCurrentImage _ => ["currentImage"]
  | SetImageDimensions _ => ["imageDimensions"]
  | SetIsLiveMode _ => ["isLiveMode"]
  | SetError _ => ["error"]
  | ResetSettings => reset_fields
  end.

(** The action is a call with an updater function, the one form whose
    partial object is computed from the state. *)
Definition is_updater (a : Action) : bool :=
  match a with
  | SetHistory (Fn _) | SetCloudHistory (Fn _) | SetCurrentImage (Fn _) => true
  | _ => false
  end.

(** A sequence of calls, the first of the list first. *)
Definition run (actions : list Action) (state : Obj) : Obj :=
  foldl (λ s a, step a s) state actions.

(** The state the initializer returns over the legacy entries of
    [Sample.legacy]. *)
Definition legacy_state : Obj :=
  match initializer Json.json_parse Sample.options Sample.legacy with
  | Normal state => state
  | Throw _ => ∅
  end.

(** ** Properties *)

(** *** [set] and the setters *)

Lemma lookup_set_hit (partial state : Obj) k v :
  partial !! k = Some v → set partial state !! k = Some v.
Proof. intros H. unfold set. by apply lookup_union_Some_l. Qed.

Lemma lookup_set_miss (partial state : Obj) k :
  partial !! k = None → set partial state !! k = state !! k.
Proof. intros H. unfold set. by apply lookup_union_r. Qed.

Lemma lookup_set_single_eq (state : Obj) k v :
  set {[k := v]} state !! k = Some v.
Proof. apply lookup_set_hit, lookup_singleton_eq. Qed.

Lemma lookup_set_single_ne (state : Obj) k k' v :
  k' ≠ k → set {[k := v]} state !! k' = state !! k'.
Proof. intros H. apply lookup_set_miss. by apply lookup_singleton_ne. Qed.

(** C1: after [resetSettings], [prompt] and [seed] are the empty string,
    [aspectRatio] is ['1:1'], [currentImage] and [error] are [null],
    [isLiveMode] is [false], and [provider], [model], [language], [steps],
    [guidanceScale], [autoTranslate], [history] and [cloudHistory] are as
    before the call. *)
Theorem resetSettings_result (state : Obj) :
  let state' := resetSettings state in
  state' !! "prompt" = Some (JStr "")
  ∧ state' !! "seed" = Some (JStr "")
  ∧ state' !! "aspectRatio" = Some (JStr "1:1")
  ∧ state' !! "currentImage" = Some JNull
  ∧ state' !! "error" = Some JNull
  ∧ state' !! "isLiveMode" = Some (JBool false)
  ∧ state' !! "provider" = state !! "provider"
  ∧ state' !! "model" = state !! "model"
  ∧ state' !! "language" = state !! "language"
  ∧ state' !! "steps" = state !! "steps"
  ∧ state' !! "guidanceScale" = state !! "guidanceScale"
  ∧ state' !! "autoTranslate" = state !! "autoTranslate"
  ∧ state' !! "history" = state !! "history"
  ∧ state' !! "cloudHistory" = state !! "cloudHistory".
Proof.
  cbv zeta. unfold resetSettings.
  repeat split;
    first [ by apply lookup_set_hit | by apply lookup_set_miss ].
Qed.

(** [Sample.fresh_state] is the state of a store constructed over an
    empty storage. *)
Lemma fresh_state_constructed :
  useAppStore Json.json_parse Sample.options Sample.fresh
  = Normal Sample.fresh_state.
Proof. vm_cast_no_check (eq_refl (Normal Sample.fresh_state)). Qed.

Lemma sized_state_reachable :
  reachable Json.json_parse Sample.options Sample.fresh Sample.sized_state.
Proof.
  apply (reachable_step _ _ _ (SetImageDimensions Sample.dimensions)).
  apply reachable_init, fresh_state_constructed.
Qed.




(** C7: [setHistory] with a function [f] makes [history] the result of
    [f] on the previous history, and with a value makes it that value;
    so do [setCloudHistory] on [cloudHistory] and [setCurrentImage] on
    [currentImage]; each leaves every other field as it was. *)
Theorem value_or_function_setters (state : Obj) (x : ValueOrFn) :
  (setHistory x state !! "history"
     = Some (match x with
             | Fn f => f (get state "history")
             | Value a => a
             end)
   ∧ ∀ k, k ≠ "history" → setHistory x state !! k = state !! k)
  ∧ (setCloudHistory x state !! "cloudHistory"
       = Some (match x with
               | Fn f => f (get state "cloudHistory")
               | Value a => a
               end)
     ∧ ∀ k, k ≠ "cloudHistory" → setCloudHistory x state !! k = state !! k)
  ∧ (setCurrentImage x state !! "currentImage"
       = Some (match x with
               | Fn f => f (get state "currentImage")
               | Value a => a
               end)
     ∧ ∀ k, k ≠ "currentImage" → setCurrentImage x state !! k = state !! k).
Proof.
  unfold setHistory, setCloudHistory, setCurrentImage, set_fn.
  repeat split;
    first [ apply lookup_set_single_eq
          | intros k Hk; by apply lookup_set_single_ne ].
Qed.

Lemma value_or_function_setters_witness :
  let prepend prev :=
    match prev with
    | JArr items => JArr (JStr "image-1" :: items)
    | _ => prev
    end in
  setHistory (Fn prepend) Sample.fresh_state !! "history"
  = Some (JArr [JStr "image-1"])
  ∧ setHistory (Fn prepend) Sample.fresh_state !! "seed"
    = Sample.fresh_state !! "seed".
Proof.
  intros prepend.
  destruct (value_or_function_setters Sample.fresh_state (Fn prepend))
    as [[Hnew Hframe] _].
  split.
  - exact Hnew.
  - apply Hframe. discriminate.
Defined.

(** *** [getLocalItem] *)

Lemma Normal_inj {A} (a b : A) : Normal a = Normal b → a = b.
Proof. by intros [= ->]. Qed.

Lemma startsWith_char (s : string) (c : Ascii.ascii) :
  startsWith s (String c EmptyString) = true ↔ begins_with c s.
Proof.
  unfold startsWith, begins_with. destruct s as [|c' rest]; simpl.
  - split; [discriminate | intros [r Hr]; discriminate Hr].
  - destruct (Ascii.ascii_dec c c') as [->|Hne].
    + split; [eauto | by destruct rest].
    + split; [discriminate | intros [r Hr]; congruence].
Qed.

Lemma looks_structured (item : string) :
  startsWith item "{" || startsWith item "[" = true
  ↔ begins_with "{" item ∨ begins_with "[" item.
Proof. rewrite orb_true_iff, !startsWith_char. reflexivity. Qed.

(** C4: for a key present in storage, a stored text that begins with
    ['{'] or ['['] and is valid JSON is returned parsed, and a stored text
    that begins with neither is returned as it is. *)
Theorem getLocalItem_present JSON_parse env storage key def item :
  localStorage env = Some storage →
  storage !! key = Some item →
  (begins_with "{" item ∨ begins_with "[" item →
   ∀ v, JSON_parse item = Normal v →
        getLocalItem JSON_parse env key def = Normal v)
  ∧ (¬ begins_with "{" item → ¬ begins_with "[" item →
     getLocalItem JSON_parse env key def = Normal (JStr item)).
Proof.
  intros Hstorage Hitem. unfold getLocalItem. rewrite Hstorage, Hitem.
  split.
  - intros Hlooks v Hparse. apply looks_structured in Hlooks.
    rewrite Hlooks, Hparse. reflexivity.
  - intros Hbrace Hbracket.
    destruct (startsWith item "{" || startsWith item "[") eqn:Hlooks.
    + apply looks_structured in Hlooks. tauto.
    + reflexivity.
Qed.

Lemma getLocalItem_present_witness :
  getLocalItem Json.json_parse Sample.legacy "ai_image_gen_history" (JArr [])
  = Normal (JArr [JNum 1; JNum 2])
  ∧ getLocalItem Json.json_parse Sample.legacy "app_language" (JStr "en")
    = Normal (JStr "fr").
Proof.
  split.
  - eapply (getLocalItem_present Json.json_parse Sample.legacy _
              "ai_image_gen_history" (JArr []) "[1, 2]").
    + reflexivity.
    + reflexivity.
    + right. by eexists.
    + reflexivity.
  - eapply (getLocalItem_present Json.json_parse Sample.legacy _
              "app_language" (JStr "en") "fr").
    + reflexivity.
    + reflexivity.
    + intros [rest Hrest]. discriminate Hrest.
    + intros [rest Hrest]. discriminate Hrest.
Defined.

Lemma getLocalItem_returns JSON_parse env key def :
  ∃ v, getLocalItem JSON_parse env key def = Normal v.
Proof.
  unfold getLocalItem.
  destruct (localStorage env) as [storage|]; [|by eexists].
  destruct (storage !! key) as [item|]; [|by eexists].
  destruct (startsWith item "{" || startsWith item "["); [|by eexists].
  destruct (JSON_parse item); by eexists.
Qed.

Lemma getLocalItem_default JSON_parse env key def :
  stored env key = None → getLocalItem JSON_parse env key def = Normal def.
Proof.
  unfold stored, getLocalItem.
  destruct (localStorage env) as [storage|]; simpl; [|done].
  by intros ->.
Qed.

(** C5: [getLocalItem] always returns normally, and on a stored text
    that begins with ['{'] or ['['] and that [JSON.parse] rejects it
    returns the default. *)
Theorem getLocalItem_never_throws JSON_parse env key def :
  (∃ v, getLocalItem JSON_parse env key def = Normal v)
  ∧ (∀ storage item e,
       localStorage env = Some storage →
       storage !! key = Some item →
       begins_with "{" item ∨ begins_with "[" item →
       JSON_parse item = Throw e →
       getLocalItem JSON_parse env key def = Normal def).
Proof.
  split.
  - apply getLocalItem_returns.
  - intros storage item e Hstorage Hitem Hlooks Hparse.
    apply looks_structured in Hlooks. unfold getLocalItem.
    rewrite Hstorage, Hitem, Hlooks, Hparse. reflexivity.
Qed.

Lemma getLocalItem_never_throws_witness :
  getLocalItem Json.json_parse Sample.legacy "ai_cloud_history" (JArr [])
  = Normal (JArr []).
Proof.
  eapply (proj2 (getLocalItem_never_throws Json.json_parse Sample.legacy
                   "ai_cloud_history" (JArr [])) _ "{oops" SyntaxError).
  - reflexivity.
  - reflexivity.
  - left. by eexists.
  - reflexivity.
Defined.

(** C6: for a key absent from the storage medium, and when there is no
    storage medium, [getLocalItem] returns the default. *)
Theorem getLocalItem_absent JSON_parse env key def :
  localStorage env = None
  ∨ (∃ storage, localStorage env = Some storage ∧ storage !! key = None) →
  getLocalItem JSON_parse env key def = Normal def.
Proof.
  intros Habsent. apply getLocalItem_default. unfold stored.
  destruct Habsent as [->|(storage & -> & Hkey)]; [reflexivity|exact Hkey].
Qed.

Lemma getLocalItem_absent_witness :
  getLocalItem Json.json_parse Sample.legacy "app_model" (JStr "model-a")
  = Normal (JStr "model-a")
  ∧ getLocalItem Json.json_parse
      {| localStorage := None; navigator_language := "en-US" |}
      "app_language" (JStr "en")
    = Normal (JStr "en").
Proof.
  split.
  - apply (getLocalItem_absent Json.json_parse Sample.legacy).
    right. eexists. split; reflexivity.
  - apply (getLocalItem_absent Json.json_parse
             {| localStorage := None; navigator_language := "en-US" |}).
    left. reflexivity.
Defined.

(** C10: a key stored with the empty string yields the empty string,
    not the default; the default is what an absent key, an unavailable
    storage medium and a stored text that [JSON.parse] rejects yield, and
    nothing else does: a call that returns the default either took one of
    these three ways, or read a stored value that is the default
    itself. *)
Theorem getLocalItem_empty_string JSON_parse env key def :
  (stored env key = Some EmptyString →
   getLocalItem JSON_parse env key def = Normal (JStr EmptyString)
   ∧ (def ≠ JStr EmptyString →
      getLocalItem JSON_parse env key def ≠ Normal def))
  ∧ (localStorage env = None
     ∨ (∃ storage, localStorage env = Some storage ∧ storage !! key = None) →
     getLocalItem JSON_parse env key def = Normal def)
  ∧ (∀ item e,
       stored env key = Some item →
       begins_with "{" item ∨ begins_with "[" item →
       JSON_parse item = Throw e →
       getLocalItem JSON_parse env key def = Normal def)
  ∧ (getLocalItem JSON_parse env key def = Normal def →
     localStorage env = None
     ∨ (∃ storage, localStorage env = Some storage ∧ storage !! key = None)
     ∨ (∃ item e,
          stored env key = Some item
          ∧ (begins_with "{" item ∨ begins_with "[" item)
          ∧ JSON_parse item = Throw e)
     ∨ (∃ item,
          stored env key = Some item
          ∧ (begins_with "{" item ∨ begins_with "[" item)
          ∧ JSON_parse item = Normal def)
     ∨ (∃ item,
          stored env key = Some item
          ∧ ¬ begins_with "{" item ∧ ¬ begins_with "[" item
          ∧ def = JStr item)).
Proof.
  unfold stored, getLocalItem.
  destruct (localStorage env) as [storage|]; cbn [mbind option_bind].
  2: { repeat split; try discriminate; auto. }
  destruct (storage !! key) as [item|] eqn:Hitem.
  2: { repeat split; try discriminate; eauto 6. }
  destruct (startsWith item "{" || startsWith item "[") eqn:Hlooks.
  - apply looks_structured in Hlooks.
    assert (Hnot_empty : item ≠ EmptyString).
    { intros ->. destruct Hlooks as [[rest Hrest]|[rest Hrest]];
        discriminate Hrest. }
    split; [intros [= Hempty]; done|].
    split; [intros [Hnone|(storage' & [= <-] & Hnone)]; congruence|].
    split.
    + intros item' e [= <-] _ Hthrow. by rewrite Hthrow.
    + destruct (JSON_parse item) as [v|e] eqn:Hparse; cbn [try_catch].
      * intros Hv%Normal_inj. subst v. do 3 right. left. eauto.
      * intros _. do 2 right. left. eauto.
  - assert (Hplain : ¬ (begins_with "{" item ∨ begins_with "[" item)).
    { intros Hstructured. apply looks_structured in Hstructured. congruence. }
    cbn [try_catch]. split; [|split; [|split]].
    + intros [= ->]. split; [reflexivity | congruence].
    + intros [Hnone|(storage' & [= <-] & Hnone)]; congruence.
    + intros item' e [= <-] Hstructured. contradiction.
    + intros Hdef%Normal_inj. do 4 right. exists item.
      split; [reflexivity|]. split; [tauto|]. split; [tauto | done].
Qed.

Lemma getLocalItem_empty_string_witness :
  getLocalItem Json.json_parse Sample.legacy "app_provider" (JStr "huggingface")
  = Normal (JStr EmptyString)
  ∧ getLocalItem Json.json_parse Sample.legacy "app_provider"
      (JStr "huggingface")
    ≠ Normal (JStr "huggingface")
  ∧ getLocalItem Json.json_parse Sample.legacy "app_model" (JStr "model-a")
    = Normal (JStr "model-a")
  ∧ getLocalItem Json.json_parse Sample.legacy "ai_cloud_history" (JArr [])
    = Normal (JArr []).
Proof.
  destruct (getLocalItem_empty_string Json.json_parse Sample.legacy
              "app_provider" (JStr "huggingface")) as (Hempty & _).
  destruct (Hempty eq_refl) as [Hvalue Hnot].
  split; [exact Hvalue|]. split; [apply Hnot; discriminate|]. split.
  - apply (getLocalItem_empty_string Json.json_parse Sample.legacy
             "app_model" (JStr "model-a")).
    right. eexists. split; reflexivity.
  - apply (proj1 (proj2 (proj2 (getLocalItem_empty_string Json.json_parse
             Sample.legacy "ai_cloud_history" (JArr []))))
             "{oops" SyntaxError).
    + reflexivity.
    + left. by eexists.
    + reflexivity.
Defined.

(** *** Construction of the store *)

Lemma lower_ascii_z c :
  lower_ascii c = "z"%char ↔ c = "z"%char ∨ c = "Z"%char.
Proof.
  destruct c as [[] [] [] [] [] [] [] []]; vm_compute;
    split; intros H; try discriminate H; try (destruct H as [H|H]; discriminate H);
    auto.
Qed.

Lemma lower_ascii_h c :
  lower_ascii c = "h"%char ↔ c = "h"%char ∨ c = "H"%char.
Proof.
  destruct c as [[] [] [] [] [] [] [] []]; vm_compute;
    split; intros H; try discriminate H; try (destruct H as [H|H]; discriminate H);
    auto.
Qed.

Lemma prefix_cons a b (s1 s2 : string) :
  String.prefix (String a s1) (String b s2)
  = if Ascii.ascii_dec a b then String.prefix s1 s2 else false.
Proof. reflexivity. Qed.

(** The locale test of the initializer is the case-insensitive prefix
    test. *)
Lemma zh_locale_test (l : string) :
  startsWith (toLowerCase l) "zh" = true ↔ zh_locale l.
Proof.
  unfold startsWith, zh_locale. split.
  - destruct l as [|c1 [|c2 rest]]; cbn [toLowerCase].
    + intros H. discriminate H.
    + rewrite prefix_cons.
      destruct (Ascii.ascii_dec "z" (lower_ascii c1)); intros H; discriminate H.
    + rewrite prefix_cons.
      destruct (Ascii.ascii_dec "z" (lower_ascii c1)) as [H1|];
        [|intros H; discriminate H].
      rewrite prefix_cons.
      destruct (Ascii.ascii_dec "h" (lower_ascii c2)) as [H2|];
        [|intros H; discriminate H].
      intros _. exists c1, c2, rest.
      symmetry in H1, H2. apply lower_ascii_z in H1. apply lower_ascii_h in H2.
      done.
  - intros (c1 & c2 & rest & -> & H1 & H2).
    apply lower_ascii_z in H1. apply lower_ascii_h in H2.
    cbn [toLowerCase]. rewrite !prefix_cons, H1, H2.
    destruct (Ascii.ascii_dec "z" "z") as [_|Hne]; [|by destruct Hne].
    destruct (Ascii.ascii_dec "h" "h") as [_|Hne]; [|by destruct Hne].
    by destruct (toLowerCase rest).
Qed.

Lemma read_snapshot_absent JSON_parse env :
  stored env name = None → read_snapshot JSON_parse env = None.
Proof.
  unfold stored, read_snapshot.
  destruct (localStorage env) as [storage|]; simpl; [|done].
  by intros ->.
Qed.

(** Membership of a given name in a given list, by evaluation. *)
Ltac in_list := apply (bool_decide_unpack _); vm_compute; exact I.

(** Runs the sequencing of the initializer one step. *)
Ltac run := cbn [mbind mret Completion_bind Completion_ret].

(** C8: over a storage without the unified entry and without legacy
    entries, the constructed state has [language] ['zh'] when the browser
    locale starts with [zh] in any case and ['en'] otherwise, [provider]
    ['huggingface'], [model] the [value] of the first model option,
    [aspectRatio] ['1:1'], [steps] 9, [guidanceScale] 3.5, [seed] the empty
    string, [autoTranslate] [false], and empty [history] and
    [cloudHistory]. *)
Theorem fresh_store_defaults JSON_parse HF_MODEL_OPTIONS env option :
  (∀ key, key ∈ name :: legacy_keys → stored env key = None) →
  HF_MODEL_OPTIONS !! 0%nat = Some option →
  ∃ state,
    useAppStore JSON_parse HF_MODEL_OPTIONS env = Normal state
    ∧ (zh_locale (navigator_language env) →
       state !! "language" = Some (JStr "zh"))
    ∧ (¬ zh_locale (navigator_language env) →
       state !! "language" = Some (JStr "en"))
    ∧ state !! "provider" = Some (JStr "huggingface")
    ∧ state !! "model" = Some (get option "value")
    ∧ state !! "aspectRatio" = Some (JStr "1:1")
    ∧ state !! "steps" = Some (JNum 9)
    ∧ state !! "guidanceScale" = Some (JNum 3.5)
    ∧ state !! "seed" = Some (JStr "")
    ∧ state !! "autoTranslate" = Some (JBool false)
    ∧ state !! "history" = Some (JArr [])
    ∧ state !! "cloudHistory" = Some (JArr []).
Proof.
  intros Hnone Hfirst.
  unfold useAppStore, initializer, first_model_value, rehydrate.
  rewrite Hfirst, read_snapshot_absent by (apply Hnone; in_list).
  repeat (rewrite getLocalItem_default by (apply Hnone; in_list); run).
  eexists. split; [reflexivity|].
  split; [|split]; [| |repeat split; reflexivity].
  - intros Hzh. apply zh_locale_test in Hzh. rewrite Hzh. reflexivity.
  - intros Hzh.
    destruct (startsWith (toLowerCase (navigator_language env)) "zh") eqn:E.
    + apply zh_locale_test in E. contradiction.
    + reflexivity.
Qed.

Lemma fresh_store_defaults_witness :
  ∃ state,
    useAppStore Json.json_parse Sample.options Sample.fresh = Normal state
    ∧ state !! "language" = Some (JStr "zh")
    ∧ state !! "model" = Some (JStr "model-a").
Proof.
  destruct (fresh_store_defaults Json.json_parse Sample.options Sample.fresh
              {["label" := JStr "Model A"; "value" := JStr "model-a"]})
    as (state & Hstate & Hzh & _ & _ & Hmodel & _).
  - intros key _. reflexivity.
  - reflexivity.
  - exists state. split; [exact Hstate|]. split; [|exact Hmodel].
    apply Hzh. exists "z"%char, "h"%char, "-CN". auto.
Defined.

(** Names the result of every [getLocalItem] call of the goal, in turn. *)
Ltac name_local_items :=
  repeat match goal with
    | |- context [getLocalItem ?p ?e ?k ?d] =>
        let v := fresh "item" in
        destruct (getLocalItem_returns p e k d) as [v ->]; run
    end.

(** The initializer's object has every data field. *)
Lemma initializer_fields JSON_parse HF_MODEL_OPTIONS env state k :
  initializer JSON_parse HF_MODEL_OPTIONS env = Normal state →
  k ∈ all_fields → is_Some (state !! k).
Proof.
  unfold initializer, first_model_value.
  destruct (HF_MODEL_OPTIONS !! 0%nat) as [option|]; name_local_items;
    [|discriminate].
  intros Hstate%Normal_inj Hk. subst state.
  unfold all_fields, persisted_fields, ephemeral_fields in Hk.
  cbn [app] in Hk.
  repeat (apply elem_of_cons in Hk as [->|Hk]; [by eexists|]).
  by apply elem_of_nil in Hk.
Qed.


(** What rehydration leaves in a field: the snapshot's value when the
    snapshot has the field, the state's value otherwise. *)
Lemma lookup_rehydrate JSON_parse env (state : Obj) k :
  rehydrate JSON_parse env state !! k
  = match read_snapshot JSON_parse env ≫= (λ snapshot, snapshot !! k) with
    | Some v => Some v
    | None => state !! k
    end.
Proof.
  unfold rehydrate.
  destruct (read_snapshot JSON_parse env) as [snapshot|];
    cbn [mbind option_bind]; [|reflexivity].
  destruct (snapshot !! k) as [v|] eqn:Hk.
  - by apply lookup_union_Some_l.
  - by apply lookup_union_r.
Qed.

Lemma rehydrate_is_Some JSON_parse env (state : Obj) k :
  is_Some (state !! k) → is_Some (rehydrate JSON_parse env state !! k).
Proof.
  intros Hk. rewrite lookup_rehydrate.
  by destruct (read_snapshot JSON_parse env ≫= (λ snapshot, snapshot !! k)).
Qed.

Lemma set_is_Some (partial state : Obj) k :
  is_Some (state !! k) → is_Some (set partial state !! k).
Proof. intros Hk. unfold set. apply lookup_union_is_Some. by right. Qed.

Lemma step_is_Some a (state : Obj) k :
  is_Some (state !! k) → is_Some (step a state !! k).
Proof. intros Hk. destruct a; by apply set_is_Some. Qed.

(** Every state of a run has every data field. *)
Lemma reachable_fields JSON_parse HF_MODEL_OPTIONS env state k :
  reachable JSON_parse HF_MODEL_OPTIONS env state →
  k ∈ all_fields → is_Some (state !! k).
Proof.
  intros Hreach Hk. induction Hreach as [state Hinit|a state _ IH].
  - unfold useAppStore in Hinit.
    destruct (initializer JSON_parse HF_MODEL_OPTIONS env) as [state0|e] eqn:H0;
      [|discriminate Hinit].
    injection Hinit as <-.
    eapply rehydrate_is_Some, initializer_fields; eassumption.
  - by apply step_is_Some.
Qed.

(** On a state that has the persisted fields, [partialize] is the
    projection. *)
Lemma partialize_projection (state : Obj) :
  (∀ k, k ∈ persisted_fields → is_Some (state !! k)) →
  projection_of state (partialize state).
Proof.
  intros Hfields. unfold projection_of. split; [|split].
  - unfold partialize. rewrite dom_list_to_map_L. reflexivity.
  - intros k Hk. destruct (Hfields k Hk) as [v Hv].
    assert (Hget : partialize state !! k = Some (get state k)).
    { unfold persisted_fields in Hk.
      repeat (apply elem_of_cons in Hk as [->|Hk]; [reflexivity|]).
      by apply elem_of_nil in Hk. }
    rewrite Hget. unfold get. by rewrite Hv.
  - intros k Hk. unfold ephemeral_fields in Hk.
    repeat (apply elem_of_cons in Hk as [->|Hk]; [reflexivity|]).
    by apply elem_of_nil in Hk.
Qed.

(** C3: in every state of a run, and after every further action, the
    object [partialize] builds has exactly the ten persisted fields, each
    with the value the state has for it, and none of the ephemeral
    fields. *)
Theorem partialize_snapshot JSON_parse HF_MODEL_OPTIONS env state :
  reachable JSON_parse HF_MODEL_OPTIONS env state →
  projection_of state (partialize state)
  ∧ ∀ a, projection_of (step a state) (partialize (step a state)).
Proof.
  intros Hreach. split; [|intros a]; apply partialize_projection; intros k Hk.
  - eapply reachable_fields; [eassumption|].
    unfold all_fields. apply elem_of_app. by left.
  - eapply reachable_fields; [by apply reachable_step|].
    unfold all_fields. apply elem_of_app. by left.
Qed.

Lemma partialize_snapshot_witness :
  projection_of Sample.sized_state (partialize Sample.sized_state)
  ∧ partialize (setSeed (JStr "42") Sample.sized_state) !! "seed"
    = Some (JStr "42").
Proof.
  destruct (partialize_snapshot Json.json_parse Sample.options Sample.fresh
              Sample.sized_state) as [Hnow Hnext].
  - apply sized_state_reachable.
  - split; [exact Hnow|].
    destruct (Hnext (SetSeed (JStr "42"))) as (_ & Hsame & _).
    rewrite Hsame by in_list. apply lookup_set_single_eq.
Defined.








(** ** Further properties *)

(** *** What an action writes *)

Ltac split_list H :=
  repeat (apply elem_of_cons in H as [->|H]); [..|by apply elem_of_nil in H].

(** Outside its written fields an action changes nothing. *)
Lemma step_frame a (state : Obj) k :
  k ∉ written_fields a → step a state !! k = state !! k.
Proof.
  intros Hk.
  destruct a; cbn [written_fields] in Hk;
    [ apply lookup_set_single_ne; intros ->; apply Hk; apply list_elem_of_here ..
    | apply lookup_set_miss; by apply not_elem_of_list_to_map_1 ].
Qed.

Lemma set_single_const (state1 state2 : Obj) k v :
  set {[k := v]} state1 !! k = set {[k := v]} state2 !! k.
Proof. by rewrite !lookup_set_single_eq. Qed.

Lemma set_fn_single_local (state1 state2 : Obj) k (g : JsVal → JsVal) :
  state1 !! k = state2 !! k →
  set_fn (λ state, {[k := g (get state k)]}) state1 !! k
  = set_fn (λ state, {[k := g (get state k)]}) state2 !! k.
Proof.
  intros Hk. unfold set_fn, get. by rewrite !lookup_set_single_eq, Hk.
Qed.

Lemma resetSettings_const (state1 state2 : Obj) k :
  k ∈ reset_fields → resetSettings state1 !! k = resetSettings state2 !! k.
Proof.
  intros Hk. unfold reset_fields in Hk. unfold resetSettings.
  split_list Hk;
    (etrans; [by apply lookup_set_hit | symmetry; by apply lookup_set_hit]).
Qed.

(** What an action leaves in a written field depends on the state's
    written fields at most. *)
Lemma step_local a (state1 state2 : Obj) k :
  (∀ k', k' ∈ written_fields a → state1 !! k' = state2 !! k') →
  k ∈ written_fields a →
  step a state1 !! k = step a state2 !! k.
Proof.
  intros Hagree Hk.
  destruct a; cbn [written_fields] in *;
    try (apply list_elem_of_singleton in Hk as ->;
         first [ apply set_single_const
               | apply (set_fn_single_local _ _ _ (value_or_apply _)),
                   Hagree, list_elem_of_here ]).
  by apply resetSettings_const.
Qed.

(** Without an updater function, it does not depend on the state. *)
Lemma step_const a (state1 state2 : Obj) k :
  is_updater a = false →
  k ∈ written_fields a →
  step a state1 !! k = step a state2 !! k.
Proof.
  intros Hplain Hk.
  destruct a as [| | | | | | | |[]|[]| | | | | | | | |[]| | | |];
    try discriminate Hplain; cbn [written_fields] in *;
    try (apply list_elem_of_singleton in Hk as ->; apply set_single_const).
  by apply resetSettings_const.
Qed.

Lemma step_written a (state : Obj) k :
  k ∈ written_fields a → is_Some (step a state !! k).
Proof.
  intros Hk.
  destruct a; cbn [written_fields] in *;
    try (apply list_elem_of_singleton in Hk as ->;
         eexists; apply lookup_set_single_eq).
  unfold reset_fields in Hk. cbn [step]. unfold resetSettings.
  split_list Hk; eexists; by apply lookup_set_hit.
Qed.

Lemma written_fields_known a k :
  k ∈ written_fields a → k ∈ all_fields.
Proof.
  intros Hk.
  destruct a; cbn [written_fields] in *;
    try (apply list_elem_of_singleton in Hk as ->; in_list).
  unfold reset_fields in Hk. split_list Hk; in_list.
Qed.

(** X1: an action changes no field outside the properties of the
    object it passes to [set], and leaves each of those properties
    defined. *)
Theorem action_writes_its_fields a (state : Obj) :
  (∀ k, k ∉ written_fields a → step a state !! k = state !! k)
  ∧ (∀ k, k ∈ written_fields a → is_Some (step a state !! k)).
Proof.
  split; intros k Hk; [by apply step_frame | by apply step_written].
Qed.

Lemma action_writes_its_fields_witness :
  step (SetPrompt (JStr "a cat")) Sample.sized_state !! "imageDimensions"
  = Sample.sized_state !! "imageDimensions"
  ∧ is_Some (step ResetSettings Sample.sized_state !! "imageDimensions").
Proof.
  split.
  - apply (proj1 (action_writes_its_fields (SetPrompt (JStr "a cat"))
                    Sample.sized_state)).
    cbn [written_fields]. in_list.
  - apply (proj2 (action_writes_its_fields ResetSettings Sample.sized_state)).
    cbn [written_fields]. in_list.
Defined.

(** *** The fields of the state along a run *)

Lemma dom_step a (state : Obj) :
  (∀ k, k ∈ all_fields → k ∈ dom state) →
  dom (step a state) = dom state.
Proof.
  intros Hall. apply set_eq. intros k. rewrite !elem_of_dom.
  destruct (decide (k ∈ written_fields a)) as [Hk|Hk].
  - split; intros _; [|by apply step_written].
    by apply elem_of_dom, Hall, (written_fields_known a).
  - by rewrite step_frame.
Qed.

Lemma initializer_dom JSON_parse HF_MODEL_OPTIONS env state :
  initializer JSON_parse HF_MODEL_OPTIONS env = Normal state →
  dom state = list_to_set all_fields.
Proof.
  unfold initializer, first_model_value.
  destruct (HF_MODEL_OPTIONS !! 0%nat) as [option|]; name_local_items;
    [|discriminate].
  intros Hstate%Normal_inj. subst state.
  rewrite dom_list_to_map_L. reflexivity.
Qed.

(** X2: from the object the initializer returns, every sequence of
    actions keeps the set of fields of the state: the twenty-two data
    fields of [AppState], none added and none lost. *)
Theorem run_keeps_fields JSON_parse HF_MODEL_OPTIONS env state0 actions :
  initializer JSON_parse HF_MODEL_OPTIONS env = Normal state0 →
  dom (run actions state0) = list_to_set all_fields.
Proof.
  intros Hdom%initializer_dom. revert state0 Hdom.
  induction actions as [|a actions IH]; intros state0 Hdom; [exact Hdom|].
  cbn [run foldl]. apply IH. rewrite dom_step; [exact Hdom|].
  intros k Hk. rewrite Hdom. by apply elem_of_list_to_set.
Qed.

Lemma fresh_state_initial :
  initializer Json.json_parse Sample.options Sample.fresh
  = Normal Sample.fresh_state.
Proof. vm_cast_no_check (eq_refl (Normal Sample.fresh_state)). Qed.

Lemma run_keeps_fields_witness :
  dom (run [SetImageDimensions Sample.dimensions; SetHistory (Fn (λ _, JNull));
            ResetSettings] Sample.fresh_state)
  = list_to_set all_fields.
Proof.
  apply (run_keeps_fields Json.json_parse Sample.options Sample.fresh).
  apply fresh_state_initial.
Defined.

(** *** The initializer and the storage *)

(** X3: the initializer throws only when [HF_MODEL_OPTIONS] is empty;
    with a first option it returns a state whatever the storage medium
    holds. *)
Theorem initializer_throws_only_without_options
    JSON_parse HF_MODEL_OPTIONS env :
  (HF_MODEL_OPTIONS = [] →
   initializer JSON_parse HF_MODEL_OPTIONS env = Throw TypeError)
  ∧ (HF_MODEL_OPTIONS ≠ [] →
     ∃ state, initializer JSON_parse HF_MODEL_OPTIONS env = Normal state).
Proof.
  unfold initializer, first_model_value. split.
  - intros ->. cbn [lookup list_lookup]. name_local_items. reflexivity.
  - intros Hsome. destruct HF_MODEL_OPTIONS as [|option rest]; [done|].
    cbn [lookup list_lookup]. name_local_items. by eexists.
Qed.

Lemma initializer_throws_only_without_options_witness :
  initializer Json.json_parse [] Sample.legacy = Throw TypeError
  ∧ ∃ state, initializer Json.json_parse Sample.options Sample.legacy
             = Normal state.
Proof.
  split.
  - by apply (proj1 (initializer_throws_only_without_options
                       Json.json_parse [] Sample.legacy)).
  - by apply (proj2 (initializer_throws_only_without_options
                       Json.json_parse Sample.options Sample.legacy)).
Defined.

Lemma getLocalItem_stored JSON_parse env1 env2 key def :
  stored env1 key = stored env2 key →
  getLocalItem JSON_parse env1 key def = getLocalItem JSON_parse env2 key def.
Proof.
  unfold stored, getLocalItem.
  destruct (localStorage env1) as [storage1|],
           (localStorage env2) as [storage2|];
    cbn [mbind option_bind]; intros Hkey.
  - by rewrite Hkey.
  - by rewrite Hkey.
  - by rewrite <- Hkey.
  - reflexivity.
Qed.

(** X4: the initializer reads the storage medium through the six legacy
    keys only: two environments with the same browser locale that hold
    the same text, or nothing, under each legacy key give the same
    result, so a missing storage medium behaves like an empty one and
    the unified entry is not read. *)
Theorem initializer_reads_legacy_keys_only
    JSON_parse HF_MODEL_OPTIONS env1 env2 :
  navigator_language env1 = navigator_language env2 →
  (∀ key, key ∈ legacy_keys → stored env1 key = stored env2 key) →
  initializer JSON_parse HF_MODEL_OPTIONS env1
  = initializer JSON_parse HF_MODEL_OPTIONS env2.
Proof.
  intros Hlocale Hstored. unfold initializer, first_model_value.
  rewrite Hlocale.
  destruct (HF_MODEL_OPTIONS !! 0%nat) as [option|]; run;
    rewrite ?(getLocalItem_stored JSON_parse env1 env2 "app_language")
      by (apply Hstored; in_list);
    rewrite ?(getLocalItem_stored JSON_parse env1 env2 "app_provider")
      by (apply Hstored; in_list);
    rewrite ?(getLocalItem_stored JSON_parse env1 env2 "app_model")
      by (apply Hstored; in_list);
    rewrite ?(getLocalItem_stored JSON_parse env1 env2 "app_aspect_ratio")
      by (apply Hstored; in_list);
    rewrite ?(getLocalItem_stored JSON_parse env1 env2 "ai_image_gen_history")
      by (apply Hstored; in_list);
    rewrite ?(getLocalItem_stored JSON_parse env1 env2 "ai_cloud_history")
      by (apply Hstored; in_list);
    reflexivity.
Qed.

Lemma initializer_reads_legacy_keys_only_witness :
  initializer Json.json_parse Sample.options
    {| localStorage := None; navigator_language := "zh-CN" |}
  = initializer Json.json_parse Sample.options
      {| localStorage := Some {[name := "{}"]}; navigator_language := "zh-CN" |}.
Proof.
  apply initializer_reads_legacy_keys_only; [reflexivity|].
  intros key Hkey. unfold stored. cbn [localStorage mbind option_bind].
  symmetry. apply lookup_singleton_ne. intros <-.
  revert Hkey. in_list.
Defined.

(** X5: the four settings without a legacy key and the twelve ephemeral
    fields leave the initializer with their literal values, whatever
    the storage medium holds. *)
Theorem initializer_fixed_fields JSON_parse HF_MODEL_OPTIONS env state :
  initializer JSON_parse HF_MODEL_OPTIONS env = Normal state →
  state !! "seed" = Some (JStr "")
  ∧ state !! "steps" = Some (JNum 9)
  ∧ state !! "guidanceScale" = Some (JNum 3.5)
  ∧ state !! "autoTranslate" = Some (JBool false)
  ∧ state !! "currentView" = Some (JStr "creation")
  ∧ state !! "prompt" = Some (JStr "")
  ∧ state !! "isLoading" = Some (JBool false)
  ∧ state !! "isTranslating" = Some (JBool false)
  ∧ state !! "isOptimizing" = Some (JBool false)
  ∧ state !! "isUpscaling" = Some (JBool false)
  ∧ state !! "isDownloading" = Some (JBool false)
  ∧ state !! "isUploading" = Some (JBool false)
  ∧ state !! "currentImage" = Some JNull
  ∧ state !! "imageDimensions" = Some JNull
  ∧ state !! "isLiveMode" = Some (JBool false)
  ∧ state !! "error" = Some JNull.
Proof.
  unfold initializer, first_model_value.
  destruct (HF_MODEL_OPTIONS !! 0%nat) as [option|]; name_local_items;
    [|discriminate].
  intros Hstate%Normal_inj. subst state. repeat split; reflexivity.
Qed.

Lemma legacy_state_initial :
  initializer Json.json_parse Sample.options Sample.legacy
  = Normal legacy_state.
Proof. vm_cast_no_check (eq_refl (Normal legacy_state)). Qed.

Lemma initializer_fixed_fields_witness :
  legacy_state !! "seed" = Some (JStr "")
  ∧ legacy_state !! "error" = Some JNull.
Proof.
  pose proof (initializer_fixed_fields Json.json_parse Sample.options
                Sample.legacy legacy_state legacy_state_initial) as Hfixed.
  split; [apply Hfixed | apply Hfixed].
Defined.

Lemma getLocalItem_plain JSON_parse env key def item :
  stored env key = Some item →
  ¬ begins_with "{" item → ¬ begins_with "[" item →
  getLocalItem JSON_parse env key def = Normal (JStr item).
Proof.
  unfold stored, getLocalItem.
  destruct (localStorage env) as [storage|]; cbn [mbind option_bind];
    [|discriminate].
  intros -> Hbrace Hbracket.
  destruct (startsWith item "{" || startsWith item "[") eqn:Hlooks;
    [|reflexivity].
  apply looks_structured in Hlooks. tauto.
Qed.

(** X6: a legacy entry whose text begins with neither ['{'] nor ['[']
    becomes the initial value of its field as it is, without any check
    against the values the field admits: the language, for one, is the
    stored text and not the one derived from the browser locale. *)
Theorem legacy_text_migrates_verbatim
    JSON_parse HF_MODEL_OPTIONS env state key field item :
  (key, field) ∈ legacy_pairs →
  stored env key = Some item →
  ¬ begins_with "{" item → ¬ begins_with "[" item →
  initializer JSON_parse HF_MODEL_OPTIONS env = Normal state →
  state !! field = Some (JStr item).
Proof.
  intros Hpair Hstored Hbrace Hbracket.
  pose proof (λ def, getLocalItem_plain JSON_parse env key def item
                       Hstored Hbrace Hbracket) as Hget.
  unfold initializer, first_model_value.
  destruct (HF_MODEL_OPTIONS !! 0%nat) as [option|]; run.
  - unfold legacy_pairs in Hpair.
    repeat (apply elem_of_cons in Hpair as [[= -> ->]|Hpair]);
      [..|by apply elem_of_nil in Hpair];
      rewrite Hget; name_local_items;
      intros Hstate%Normal_inj; subst state; reflexivity.
  - name_local_items. discriminate.
Qed.

Lemma fr_plain :
  ¬ begins_with "{" "fr" ∧ ¬ begins_with "[" "fr".
Proof. split; intros [rest Hrest]; discriminate Hrest. Qed.

Lemma legacy_text_migrates_verbatim_witness :
  legacy_state !! "language" = Some (JStr "fr").
Proof.
  apply (legacy_text_migrates_verbatim Json.json_parse Sample.options
           Sample.legacy legacy_state "app_language" "language" "fr").
  - in_list.
  - reflexivity.
  - apply fr_plain.
  - apply fr_plain.
  - apply legacy_state_initial.
Defined.

(** *** The snapshot *)

Lemma lookup_partialize (state : Obj) k :
  partialize state !! k
  = if decide (k ∈ persisted_fields) then Some (get state k) else None.
Proof.
  case_decide as Hk.
  - unfold persisted_fields in Hk. split_list Hk; reflexivity.
  - by apply not_elem_of_list_to_map_1.
Qed.

Lemma persisted_not_ephemeral k :
  k ∈ persisted_fields → k ∉ ephemeral_fields.
Proof. intros Hk. unfold persisted_fields in Hk. split_list Hk; in_list. Qed.

Lemma partialize_agree (state1 state2 : Obj) :
  (∀ k, k ∈ persisted_fields → state1 !! k = state2 !! k) →
  partialize state1 = partialize state2.
Proof.
  intros Hagree. apply map_eq. intros k. rewrite !lookup_partialize.
  case_decide as Hk; [|reflexivity]. unfold get. by rewrite (Hagree k Hk).
Qed.



(** X8: an action that writes ephemeral fields only leaves the snapshot
    as it was. *)
Theorem ephemeral_actions_keep_snapshot a (state : Obj) :
  (∀ k, k ∈ written_fields a → k ∈ ephemeral_fields) →
  partialize (step a state) = partialize state.
Proof.
  intros Hephemeral. apply partialize_agree. intros k Hk.
  apply step_frame. intros Hwritten.
  by apply (persisted_not_ephemeral k Hk), Hephemeral.
Qed.

Lemma ephemeral_actions_keep_snapshot_witness :
  partialize (step (SetCurrentImage (Fn (λ _, JStr "image-1")))
                Sample.fresh_state)
  = partialize Sample.fresh_state.
Proof.
  apply ephemeral_actions_keep_snapshot. intros k Hk.
  cbn [written_fields] in Hk. apply list_elem_of_singleton in Hk as ->.
  in_list.
Defined.

Lemma set_single_insert (state : Obj) k v :
  set {[k := v]} state = <[k := v]> state.
Proof. unfold set. symmetry. apply insert_union_singleton_l. Qed.

Lemma partialize_insert (state : Obj) k v :
  k ∈ persisted_fields →
  partialize (<[k := v]> state) = <[k := v]> (partialize state).
Proof.
  intros Hk. apply map_eq. intros k'.
  destruct (decide (k' = k)) as [->|Hne].
  - rewrite lookup_partialize, decide_True by done.
    unfold get. by rewrite !lookup_insert_eq.
  - rewrite lookup_insert_ne by done. rewrite !lookup_partialize.
    unfold get. by rewrite lookup_insert_ne.
Qed.

(** X9: after a setter of a persisted field the snapshot is the
    previous snapshot with that one field replaced by the value
    written. *)
Theorem snapshot_follows_persisted_setters (state : Obj) v x :
  partialize (setLanguage v state) = <["language" := v]> (partialize state)
  ∧ partialize (setProvider v state) = <["provider" := v]> (partialize state)
  ∧ partialize (setModel v state) = <["model" := v]> (partialize state)
  ∧ partialize (setAspectRatio v state)
    = <["aspectRatio" := v]> (partialize state)
  ∧ partialize (setSeed v state) = <["seed" := v]> (partialize state)
  ∧ partialize (setSteps v state) = <["steps" := v]> (partialize state)
  ∧ partialize (setGuidanceScale v state)
    = <["guidanceScale" := v]> (partialize state)
  ∧ partialize (setAutoTranslate v state)
    = <["autoTranslate" := v]> (partialize state)
  ∧ partialize (setHistory x state)
    = <["history" := value_or_apply x (get state "history")]>
        (partialize state)
  ∧ partialize (setCloudHistory x state)
    = <["cloudHistory" := value_or_apply x (get state "cloudHistory")]>
        (partialize state).
Proof.
  unfold setLanguage, setProvider, setModel, setAspectRatio, setSeed, setSteps,
    setGuidanceScale, setAutoTranslate, setHistory, setCloudHistory, set_fn.
  rewrite !set_single_insert.
  repeat split; apply partialize_insert; in_list.
Qed.

(** X10: merging the snapshot of one state over any other state gives
    a state whose snapshot is that snapshot again, and whose fields
    outside the ten persisted ones are those of the other state; in
    particular the projection of a snapshot is the snapshot. *)
Theorem snapshot_merge_round_trip (state1 state2 : Obj) :
  partialize (set (partialize state1) state2) = partialize state1
  ∧ (∀ k, k ∉ persisted_fields →
          set (partialize state1) state2 !! k = state2 !! k)
  ∧ partialize (partialize state1) = partialize state1.
Proof.
  assert (Hget : ∀ k, k ∈ persisted_fields →
                      partialize state1 !! k = Some (get state1 k)).
  { intros k Hk. by rewrite lookup_partialize, decide_True. }
  split; [|split].
  - apply map_eq. intros k. rewrite !lookup_partialize.
    case_decide as Hk; [|reflexivity].
    unfold get at 1. by rewrite (lookup_set_hit _ _ _ _ (Hget k Hk)).
  - intros k Hk. apply lookup_set_miss.
    by rewrite lookup_partialize, decide_False.
  - apply map_eq. intros k. rewrite !lookup_partialize.
    case_decide as Hk; [|reflexivity].
    unfold get at 1. by rewrite (Hget k Hk).
Qed.

Lemma snapshot_merge_round_trip_witness :
  set (partialize Sample.sized_state) legacy_state !! "prompt"
  = legacy_state !! "prompt".
Proof.
  apply (proj1 (proj2 (snapshot_merge_round_trip Sample.sized_state
                         legacy_state))).
  in_list.
Defined.

(** *** How actions compose *)

(** X11: an action without an updater function makes an earlier action
    on fields it writes itself irrelevant: the last write wins, a setter
    or [resetSettings] called twice acts as called once, and
    [resetSettings] undoes every earlier change of the fields it
    resets. *)
Theorem later_write_wins a b (state : Obj) :
  is_updater a = false →
  (∀ k, k ∈ written_fields b → k ∈ written_fields a) →
  step a (step b state) = step a state.
Proof.
  intros Hplain Hcovered. apply map_eq. intros k.
  destruct (decide (k ∈ written_fields a)) as [Hk|Hk].
  - by apply step_const.
  - rewrite !(step_frame a) by done. apply step_frame.
    intros Hb. by apply Hk, Hcovered.
Qed.

Lemma later_write_wins_witness :
  step ResetSettings (step (SetImageDimensions Sample.dimensions)
                        Sample.fresh_state)
  = step ResetSettings Sample.fresh_state.
Proof.
  apply later_write_wins; [reflexivity|].
  intros k Hk. cbn [written_fields] in *.
  apply list_elem_of_singleton in Hk as ->. in_list.
Defined.

(** X12: two actions that write no common field commute, updater
    functions included. *)
Theorem independent_actions_commute a b (state : Obj) :
  (∀ k, k ∈ written_fields a → k ∉ written_fields b) →
  step a (step b state) = step b (step a state).
Proof.
  intros Hdisjoint. apply map_eq. intros k.
  destruct (decide (k ∈ written_fields a)) as [Ha|Ha].
  - rewrite (step_frame b (step a state)) by (by apply Hdisjoint).
    apply step_local; [|done].
    intros k' Hk'. apply step_frame. by apply Hdisjoint.
  - rewrite (step_frame a (step b state)) by done.
    destruct (decide (k ∈ written_fields b)) as [Hb|Hb].
    + apply step_local; [|done].
      intros k' Hk'. symmetry. apply step_frame.
      intros Ha'. by apply (Hdisjoint k' Ha').
    + by rewrite !step_frame.
Qed.

Lemma independent_actions_commute_witness :
  let prepend prev :=
    match prev with
    | JArr items => JArr (JStr "image-1" :: items)
    | _ => prev
    end in
  step (SetHistory (Fn prepend)) (step ResetSettings Sample.fresh_state)
  = step ResetSettings (step (SetHistory (Fn prepend)) Sample.fresh_state).
Proof.
  intros prepend. apply independent_actions_commute.
  intros k Hk. cbn [written_fields] in *.
  apply list_elem_of_singleton in Hk as ->. in_list.
Defined.

Lemma updater_after_write (state : Obj) k (g : JsVal → JsVal) v :
  set_fn (λ state, {[k := g (get state k)]}) (set {[k := v]} state)
  = set {[k := g v]} state.
Proof.
  unfold set_fn, get. rewrite !set_single_insert, lookup_insert_eq.
  apply insert_insert_eq.
Qed.

(** X13: an updater function is applied to the value the previous call
    left: two updaters in a row act as their composition, and an updater
    after a value acts as setting the updater's result on that value;
    for [setHistory], [setCloudHistory] and [setCurrentImage] alike. *)
Theorem updaters_compose (state : Obj) (f g : JsVal → JsVal) v :
  (setHistory (Fn g) (setHistory (Fn f) state)
   = setHistory (Fn (λ prev, g (f prev))) state
   ∧ setHistory (Fn g) (setHistory (Value v) state)
     = setHistory (Value (g v)) state)
  ∧ (setCloudHistory (Fn g) (setCloudHistory (Fn f) state)
     = setCloudHistory (Fn (λ prev, g (f prev))) state
     ∧ setCloudHistory (Fn g) (setCloudHistory (Value v) state)
       = setCloudHistory (Value (g v)) state)
  ∧ (setCurrentImage (Fn g) (setCurrentImage (Fn f) state)
     = setCurrentImage (Fn (λ prev, g (f prev))) state
     ∧ setCurrentImage (Fn g) (setCurrentImage (Value v) state)
       = setCurrentImage (Value (g v)) state).
Proof.
  unfold setHistory, setCloudHistory, setCurrentImage.
  repeat split;
    unfold set_fn at 2 3; cbn [value_or_apply];
    apply (updater_after_write state _ g).
Qed.

(** X14: an updater that returns its argument leaves the state as it is
    exactly when the state has the field; on a state without the field
    it adds the field, with the value [undefined]. *)
Theorem identity_updater (state : Obj) :
  (setHistory (Fn (λ prev, prev)) state = state
   ↔ is_Some (state !! "history"))
  ∧ (setCloudHistory (Fn (λ prev, prev)) state = state
     ↔ is_Some (state !! "cloudHistory"))
  ∧ (setCurrentImage (Fn (λ prev, prev)) state = state
     ↔ is_Some (state !! "currentImage"))
  ∧ (state !! "history" = None →
     setHistory (Fn (λ prev, prev)) state !! "history" = Some JUndefined).
Proof.
  assert (Hid : ∀ k,
    set_fn (λ state, {[k := get state k]}) state = state
    ↔ is_Some (state !! k)).
  { intros k. unfold set_fn. rewrite set_single_insert. split.
    - intros Heq. rewrite <- Heq. rewrite lookup_insert_eq. by eexists.
    - intros [v Hv]. apply insert_id. unfold get. by rewrite Hv. }
  repeat split; try apply Hid.
  intros Hnone. unfold setHistory, set_fn. cbn [value_or_apply].
  rewrite lookup_set_single_eq. unfold get. by rewrite Hnone.
Qed.

Lemma identity_updater_witness :
  setHistory (Fn (λ prev, prev)) ∅ !! "history" = Some JUndefined.
Proof.
  apply (proj2 (proj2 (proj2 (identity_updater ∅)))). reflexivity.
Defined.

(** X15: the values [resetSettings] writes are the values the
    initializer gives the same fields when no legacy aspect ratio is
    stored: a reset returns the seven fields to their initial values. *)
Theorem reset_restores_initial_values
    JSON_parse HF_MODEL_OPTIONS env state0 (state : Obj) k :
  stored env "app_aspect_ratio" = None →
  initializer JSON_parse HF_MODEL_OPTIONS env = Normal state0 →
  k ∈ reset_fields →
  resetSettings state !! k = state0 !! k.
Proof.
  intros Hratio. unfold initializer, first_model_value.
  rewrite (getLocalItem_default JSON_parse env "app_aspect_ratio" _ Hratio).
  destruct (HF_MODEL_OPTIONS !! 0%nat) as [option|]; name_local_items;
    [|discriminate].
  intros Hstate%Normal_inj Hk. subst state0.
  rewrite (resetSettings_const state ∅ k Hk).
  unfold reset_fields in Hk. split_list Hk; reflexivity.
Qed.

Lemma reset_restores_initial_values_witness :
  resetSettings Sample.sized_state !! "imageDimensions"
  = legacy_state !! "imageDimensions".
Proof.
  apply (reset_restores_initial_values Json.json_parse Sample.options
           Sample.legacy).
  - reflexivity.
  - apply legacy_state_initial.
  - in_list.
Defined.

Lemma persisted_not_reset k :
  k ∈ persisted_fields → k ≠ "seed" → k ≠ "aspectRatio" → k ∉ reset_fields.
Proof.
  intros Hk Hseed Hratio. unfold persisted_fields in Hk.
  split_list Hk; first [done | in_list].
Qed.

(** X16: of what [resetSettings] changes, the snapshot shows the seed
    and the aspect ratio only: every other persisted field, the two
    histories included, is in the snapshot as before the reset. *)
Theorem reset_snapshot (state : Obj) :
  partialize (resetSettings state)
  = <["seed" := JStr ""]> (<["aspectRatio" := JStr "1:1"]> (partialize state)).
Proof.
  apply map_eq. intros k.
  destruct (decide (k = "seed")) as [->|Hseed].
  { rewrite lookup_insert_eq, lookup_partialize, decide_True by in_list.
    unfold get, resetSettings. by erewrite lookup_set_hit. }
  rewrite lookup_insert_ne by done.
  destruct (decide (k = "aspectRatio")) as [->|Hratio].
  { rewrite lookup_insert_eq, lookup_partialize, decide_True by in_list.
    unfold get, resetSettings. by erewrite lookup_set_hit. }
  rewrite lookup_insert_ne by done. rewrite !lookup_partialize.
  case_decide as Hk; [|reflexivity].
  pose proof (step_frame ResetSettings state k
                (persisted_not_reset k Hk Hseed Hratio)) as Hframe.
  cbn [step] in Hframe. unfold get. by rewrite Hframe.
Qed.
